(** * libreoffice-voikko: the spelling-alternatives holder and the common glue

    A shallow embedding of
      - [src/spellchecker/SpellAlternatives.hxx] (class [SpellAlternatives]),
      - [src/common.cxx] ([getVoikkoMutex], [getInstallationPath],
        [getRegistryProperties] and the globals of the translation unit),
    followed by the properties of the specification stated over it. *)

From Stdlib Require Import ZArith List String Ascii Bool Lia FinFun.
From Stdlib Require Import DecimalString DecimalNat.
Import ListNotations.

Local Open Scope Z_scope.
Local Open Scope string_scope.

(* ===================================================================== *)
(** ** SAL and UNO base types *)
(* ===================================================================== *)

Module Sal.

(** [sal_Int16] and [sal_Int32] are carried by [Z]; a value is in a type
    when it lies in its two's-complement range. *)
Definition SAL_MIN_INT16 : Z := -32768.
Definition SAL_MAX_INT16 : Z := 32767.
Definition SAL_MAX_INT32 : Z := 2147483647.

Definition in_sal_Int16 (z : Z) : Prop := SAL_MIN_INT16 <= z <= SAL_MAX_INT16.

(** Conversion of an integer to [sal_Int16]: the value modulo 2^16,
    read as a signed 16-bit number. *)
Definition to_sal_Int16 (z : Z) : Z := (z + 32768) mod 65536 - 32768.

End Sal.

(** [rtl::OUString]. *)
Definition OUString := string.

(** [uno::Sequence<T>]: a value type, always a (possibly empty) sequence;
    [getLength] is a [sal_Int32]. *)
Definition Sequence (T : Type) := list T.

Definition getLength {T} (s : Sequence T) : Z := Z.of_nat (List.length s).

(** [uno::Reference<T>]: a possibly null interface reference; [is()] tells
    whether it is set. *)
Definition Reference (T : Type) := option T.

Definition is_set {T} (r : Reference T) : bool :=
  match r with Some _ => true | None => false end.

(** [lang::Locale]. *)
Record Locale := mkLocale {
  Language : OUString;
  Country : OUString;
  Variant : OUString
}.

(* ===================================================================== *)
(** ** spellchecker/SpellAlternatives.hxx *)
(* ===================================================================== *)

(** The class has two data members, both public, and declares no
    constructor. *)
Record SpellAlternatives := mkSpellAlternatives {
  word : OUString;
  alternatives : Sequence OUString
}.

(** The implicitly defined default constructor: both members are
    default-constructed (empty string, empty sequence). *)
Definition SpellAlternatives_new : SpellAlternatives :=
  {| word := ""; alternatives := [] |}.

(** Assignments to the public data members, the only way the class offers
    to populate an instance. *)
Inductive assignment :=
| set_word (w : OUString)
| set_alternatives (a : Sequence OUString).

Definition assign (r : SpellAlternatives) (a : assignment) : SpellAlternatives :=
  match a with
  | set_word w => {| word := w; alternatives := alternatives r |}
  | set_alternatives s => {| word := word r; alternatives := s |}
  end.

(** The outcome of an attempt to build an instance. *)
Inductive construction :=
| Constructed (r : SpellAlternatives)
| ConstructionFailed.

(** [new SpellAlternatives()] followed by the member assignments the
    caller chooses to make. Nothing on this path inspects the values. *)
Definition construct_with (asgs : list assignment) : construction :=
  Constructed (fold_left assign asgs SpellAlternatives_new).

(** The usual construction: both members are assigned. *)
Definition construct (w : OUString) (alts : Sequence OUString) : SpellAlternatives :=
  fold_left assign [set_word w; set_alternatives alts] SpellAlternatives_new.

(** Modelled from the spec: what a valid construction supplies. The
    constructing analyzer is not part of the sources; section 6 of the
    specification says the holder consumes a "precomputed, ranked,
    duplicate-free sequence of candidate strings". The length bound is the
    one of [uno::Sequence], whose length is a [sal_Int32]. *)
Definition valid_construction (w : OUString) (alts : Sequence OUString) : Prop :=
  NoDup alts /\ getLength alts <= Sal.SAL_MAX_INT32.

(** Modelled from the spec: validity of a live instance (section 3, the
    invariants of the data model): the alternatives hold no duplicates. *)
Definition valid_instance (r : SpellAlternatives) : Prop :=
  NoDup (alternatives r) /\ getLength (alternatives r) <= Sal.SAL_MAX_INT32.

(** The member functions are virtual and not [const]: each receives
    [this] and hands back a result together with the object as it leaves
    it. *)
Definition Method (A : Type) := SpellAlternatives -> A * SpellAlternatives.

Section Accessors.

(** The class stores neither a locale nor a failure type; whatever the
    accessors answer is fixed outside the instance. *)
Variable engine_locale : Locale.
Variable engine_failureType : Z.

(** Modelled from the spec: the body of [getWord] (SpellAlternatives.cxx
    is not part of the sources): "returns the exact original input word,
    unmodified". *)
Definition getWord : Method OUString :=
  fun this => (word this, this).

(** Modelled from the spec: the body of [getLocale]: "returns the locale
    under which the check was performed". *)
Definition getLocale : Method Locale :=
  fun this => (engine_locale, this).

(** Modelled from the spec: the body of [getFailureType]: "returns the
    enumerated reason the word was flagged", through the declared
    [sal_Int16] return type. *)
Definition getFailureType : Method Z :=
  fun this => (Sal.to_sal_Int16 engine_failureType, this).

(** Modelled from the spec: the body of [getAlternativesCount]: "returns
    the number of candidate replacements", through the declared
    [sal_Int16] return type (the length of a sequence is a
    [sal_Int32]). *)
Definition getAlternativesCount : Method Z :=
  fun this => (Sal.to_sal_Int16 (getLength (alternatives this)), this).

(** Modelled from the spec: the body of [getAlternatives]: "returns all
    candidate replacements, best match first". The sequence is returned
    by value. *)
Definition getAlternatives : Method (Sequence OUString) :=
  fun this => (alternatives this, this).

(** The interface [linguistic2::XSpellAlternatives] as the host sees it:
    five operations and the values they answer. *)
Inductive operation :=
| op_getWord
| op_getLocale
| op_getFailureType
| op_getAlternativesCount
| op_getAlternatives.

Inductive answer :=
| ans_OUString (s : OUString)
| ans_Locale (l : Locale)
| ans_sal_Int16 (n : Z)
| ans_Sequence (s : Sequence OUString).

Definition call (op : operation) : Method answer :=
  fun this =>
    match op with
    | op_getWord => let (v, this') := getWord this in (ans_OUString v, this')
    | op_getLocale => let (v, this') := getLocale this in (ans_Locale v, this')
    | op_getFailureType => let (v, this') := getFailureType this in (ans_sal_Int16 v, this')
    | op_getAlternativesCount =>
        let (v, this') := getAlternativesCount this in (ans_sal_Int16 v, this')
    | op_getAlternatives => let (v, this') := getAlternatives this in (ans_Sequence v, this')
    end.

(** A host session: operations called one after the other on the same
    instance; the answers are collected in call order. *)
Fixpoint session (ops : list operation) : Method (list answer) :=
  fun this =>
    match ops with
    | [] => ([], this)
    | op :: ops' =>
        let (v, this') := call op this in
        let (vs, this'') := session ops' this' in
        (v :: vs, this'')
    end.

End Accessors.

(** Scenario data. *)
Definition fi_FI : Locale := mkLocale "fi" "FI" "".

(** A sequence of [n] pairwise different candidates: the decimal numerals
    of 0 .. n-1. *)
Definition numeral (n : nat) : OUString := NilEmpty.string_of_uint (Nat.to_uint n).

Definition numerals (n : nat) : Sequence OUString := map numeral (seq 0 n).

(** One more than the largest [sal_Int16]. *)
Definition too_many : nat := Z.to_nat (Sal.SAL_MAX_INT16 + 1).


(* ===================================================================== *)
(** ** common.cxx *)
(* ===================================================================== *)

(** *** Exceptions and outcomes of a call *)

(** What a C++ call may throw: [uno::Exception] (or a class derived from
    it, carried by its message), or an exception of a type outside that
    hierarchy, such as [std::bad_alloc] from a string allocation. *)
Inductive exception :=
| uno_Exception (Message : OUString)
| foreign_exception (what : string).

Inductive outcome (A : Type) :=
| Returns (a : A)
| Throws (e : exception).

Arguments Returns {A} a.
Arguments Throws {A} e.

Definition bind {A B} (c : outcome A) (k : A -> outcome B) : outcome B :=
  match c with
  | Returns a => k a
  | Throws e => Throws e
  end.

Declare Scope outcome_scope.
Delimit Scope outcome_scope with outcome.
Notation "x <- c ;; k" := (bind c (fun x => k))
  (at level 61, c at next level, right associativity) : outcome_scope.
Local Open Scope outcome_scope.

(** [try { body } catch (uno::Exception e) { handler }]: the handler is
    entered for [uno::Exception] and its subclasses only; anything else
    leaves the block as it came. *)
Definition try_catch_uno_Exception {A}
    (body : outcome A) (handler : OUString -> outcome A) : outcome A :=
  match body with
  | Returns a => Returns a
  | Throws (uno_Exception m) => handler m
  | Throws (foreign_exception w) => Throws (foreign_exception w)
  end.

(** *** UNO values used by the registry lookup *)

Inductive PropertyState :=
| PropertyState_DIRECT_VALUE
| PropertyState_DEFAULT_VALUE
| PropertyState_AMBIGUOUS_VALUE.

(** [uno::Any] as far as this file fills it, and [beans::PropertyValue]. *)
Inductive Any :=
| Any_void
| Any_OUString (s : OUString)
| Any_PropertyValue (p : PropertyValue)
with PropertyValue :=
| mkPropertyValue (Name : OUString) (Handle : Z) (Value : Any) (State : PropertyState).

(** *** The host's services

    The objects behind the interfaces belong to the host. Their types and
    the behaviour of the methods the file calls are the parameters of the
    development. A context handed to the functions is a set reference: both
    functions dereference it without a test. *)
Class UnoRuntime := {
  XComponentContext : Type;
  XMultiComponentFactory : Type;
  XMultiServiceFactory : Type;
  XInterface : Type;
  XPackageInformationProvider : Type;
  (** [deployment::PackageInformationProvider::get]: the singleton, or a
      [DeploymentException] *)
  PackageInformationProvider_get :
    XComponentContext -> outcome XPackageInformationProvider;
  getPackageLocation : XPackageInformationProvider -> OUString -> outcome OUString;
  (** [osl::FileBase::getSystemPathFromFileURL]: the system path on
      [E_None], nothing on an error code (the output string is then left
      as it was) *)
  getSystemPathFromFileURL : OUString -> option OUString;
  getServiceManager : XComponentContext -> outcome (Reference XMultiComponentFactory);
  createInstanceWithContext :
    XMultiComponentFactory -> OUString -> XComponentContext ->
    outcome (Reference XInterface);
  (** [Reference<XMultiServiceFactory>(iFace, UNO_QUERY)] *)
  query_XMultiServiceFactory : XInterface -> outcome (Reference XMultiServiceFactory);
  createInstanceWithArguments :
    XMultiServiceFactory -> OUString -> Sequence Any -> outcome (Reference XInterface)
}.

Section Common.

Context {uno : UnoRuntime}.

(** The body of the [try] block of [getInstallationPath]. The return code
    of [getSystemPathFromFileURL] is not looked at: on an error the local
    [locationSystemPath] is still the empty string it was constructed as. *)
Definition getInstallationPath_try (compContext : XComponentContext) : outcome OUString :=
  provider <- PackageInformationProvider_get compContext ;;
  locationFileURL <- getPackageLocation provider "org.puimula.ooovoikko" ;;
  let locationSystemPath :=
    match getSystemPathFromFileURL locationFileURL with
    | Some path => path
    | None => ""
    end in
  Returns locationSystemPath.

Definition getInstallationPath (compContext : XComponentContext) : outcome OUString :=
  try_catch_uno_Exception
    (getInstallationPath_try compContext)
    (fun _ => Returns "").

(** The argument sequence built for the configuration provider. *)
Definition nodepath_arguments (group : OUString) : Sequence Any :=
  let pathArgument :=
    mkPropertyValue "nodepath" 0 (Any_OUString group) PropertyState_DIRECT_VALUE in
  [Any_PropertyValue pathArgument].

Definition getRegistryProperties (group : OUString) (compContext : XComponentContext)
    : outcome (Reference XInterface) :=
  let rootView : Reference XInterface := None in
  servManager <- getServiceManager compContext ;;
  match servManager with
  | None => Returns rootView
  | Some servManager =>
    iFace <- createInstanceWithContext servManager
               "com.sun.star.configuration.ConfigurationProvider" compContext ;;
    match iFace with
    | None => Returns rootView
    | Some iFace =>
      provider <- query_XMultiServiceFactory iFace ;;
      match provider with
      | None => Returns rootView
      | Some provider =>
        let aArguments := nodepath_arguments group in
        try_catch_uno_Exception
          (created <- createInstanceWithArguments provider
                        "com.sun.star.configuration.ConfigurationUpdateAccess"
                        aArguments ;;
           (* rootView = created; the test of rootView.is() only logs *)
           Returns created)
          (fun _ => Returns rootView)
      end
    end
  end.

(** The failures the function tests for, one constructor per test. *)
Inductive handled_failure (group : OUString) (compContext : XComponentContext) : Prop :=
| servManager_absent :
    getServiceManager compContext = Returns None ->
    handled_failure group compContext
| iFace_absent servManager :
    getServiceManager compContext = Returns (Some servManager) ->
    createInstanceWithContext servManager
      "com.sun.star.configuration.ConfigurationProvider" compContext = Returns None ->
    handled_failure group compContext
| provider_absent servManager iFace :
    getServiceManager compContext = Returns (Some servManager) ->
    createInstanceWithContext servManager
      "com.sun.star.configuration.ConfigurationProvider" compContext
      = Returns (Some iFace) ->
    query_XMultiServiceFactory iFace = Returns None ->
    handled_failure group compContext
| rootView_throws servManager iFace provider m :
    getServiceManager compContext = Returns (Some servManager) ->
    createInstanceWithContext servManager
      "com.sun.star.configuration.ConfigurationProvider" compContext
      = Returns (Some iFace) ->
    query_XMultiServiceFactory iFace = Returns (Some provider) ->
    createInstanceWithArguments provider
      "com.sun.star.configuration.ConfigurationUpdateAccess"
      (nodepath_arguments group) = Throws (uno_Exception m) ->
    handled_failure group compContext
| rootView_absent servManager iFace provider :
    getServiceManager compContext = Returns (Some servManager) ->
    createInstanceWithContext servManager
      "com.sun.star.configuration.ConfigurationProvider" compContext
      = Returns (Some iFace) ->
    query_XMultiServiceFactory iFace = Returns (Some provider) ->
    createInstanceWithArguments provider
      "com.sun.star.configuration.ConfigurationUpdateAccess"
      (nodepath_arguments group) = Returns None ->
    handled_failure group compContext.

(** The view [v] is the finished product of the whole chain of calls. *)
Definition complete_view (group : OUString) (compContext : XComponentContext)
    (v : XInterface) : Prop :=
  exists servManager iFace provider,
    getServiceManager compContext = Returns (Some servManager) /\
    createInstanceWithContext servManager
      "com.sun.star.configuration.ConfigurationProvider" compContext
      = Returns (Some iFace) /\
    query_XMultiServiceFactory iFace = Returns (Some provider) /\
    createInstanceWithArguments provider
      "com.sun.star.configuration.ConfigurationUpdateAccess"
      (nodepath_arguments group) = Returns (Some v).

End Common.

(** *** Objects of static storage duration

    The translation unit defines three: the function-local static
    [voikkoMutex] and the namespace-scope [voikko_initialized] and
    [thePropertyManager]. A C++ reference to one of them is modelled by
    the object's identity. *)
Inductive static_object :=
| the_voikkoMutex
| the_voikko_initialized
| the_thePropertyManager.

(** [osl::Mutex], a recursive mutex: how many times it is held. *)
Record Mutex := mkMutex { held : nat }.

(** The state of the statics during a run. [voikkoMutex] is [None] until
    control first passes through its declaration. *)
Record statics := mkStatics {
  voikkoMutex : option Mutex;
  voikko_initialized : bool
}.

Definition program_start : statics :=
  {| voikkoMutex := None; voikko_initialized := false |}.

(** [static osl::Mutex voikkoMutex; return voikkoMutex;] the object is
    constructed the first time the declaration is reached and never
    again; the function answers a reference to it. *)
Definition getVoikkoMutex (s : statics) : static_object * statics :=
  match voikkoMutex s with
  | Some _ => (the_voikkoMutex, s)
  | None =>
      (the_voikkoMutex,
       {| voikkoMutex := Some (mkMutex 0); voikko_initialized := voikko_initialized s |})
  end.

(** What the rest of the process may do to the statics between two calls:
    take or release the mutex (when it exists), flip the flag. *)
Inductive action :=
| act_acquire
| act_release
| act_set_initialized (b : bool).

Definition perform (s : statics) (a : action) : statics :=
  match a with
  | act_acquire =>
      {| voikkoMutex := option_map (fun m => mkMutex (S (held m))) (voikkoMutex s);
         voikko_initialized := voikko_initialized s |}
  | act_release =>
      {| voikkoMutex := option_map (fun m => mkMutex (pred (held m))) (voikkoMutex s);
         voikko_initialized := voikko_initialized s |}
  | act_set_initialized b =>
      {| voikkoMutex := voikkoMutex s; voikko_initialized := b |}
  end.

(* ===================================================================== *)
(** ** Further vocabulary for the properties below *)
(* ===================================================================== *)

(** *** Member assignments, read back

    What a series of assignments leaves in each member: the value of the
    last assignment to it, or the given default when there was none. *)
Fixpoint last_word (asgs : list assignment) (default : OUString) : OUString :=
  match asgs with
  | [] => default
  | set_word w :: asgs' => last_word asgs' w
  | set_alternatives _ :: asgs' => last_word asgs' default
  end.

Fixpoint last_alternatives (asgs : list assignment) (default : Sequence OUString)
    : Sequence OUString :=
  match asgs with
  | [] => default
  | set_word _ :: asgs' => last_alternatives asgs' default
  | set_alternatives a :: asgs' => last_alternatives asgs' a
  end.

Section CommonOutcomes.

Context {uno : UnoRuntime}.

(** The ways an exception gets out of [getRegistryProperties]: it is
    thrown by one of the three calls made outside the [try] block, or by
    the guarded call without being a [uno::Exception]. *)
Inductive escapes (group : OUString) (compContext : XComponentContext)
    : exception -> Prop :=
| escapes_getServiceManager e :
    getServiceManager compContext = Throws e ->
    escapes group compContext e
| escapes_createInstanceWithContext servManager e :
    getServiceManager compContext = Returns (Some servManager) ->
    createInstanceWithContext servManager
      "com.sun.star.configuration.ConfigurationProvider" compContext = Throws e ->
    escapes group compContext e
| escapes_query servManager iFace e :
    getServiceManager compContext = Returns (Some servManager) ->
    createInstanceWithContext servManager
      "com.sun.star.configuration.ConfigurationProvider" compContext
      = Returns (Some iFace) ->
    query_XMultiServiceFactory iFace = Throws e ->
    escapes group compContext e
| escapes_createInstanceWithArguments servManager iFace provider w :
    getServiceManager compContext = Returns (Some servManager) ->
    createInstanceWithContext servManager
      "com.sun.star.configuration.ConfigurationProvider" compContext
      = Returns (Some iFace) ->
    query_XMultiServiceFactory iFace = Returns (Some provider) ->
    createInstanceWithArguments provider
      "com.sun.star.configuration.ConfigurationUpdateAccess"
      (nodepath_arguments group) = Throws (foreign_exception w) ->
    escapes group compContext (foreign_exception w).

(** The provider the chain of calls reaches, when it gets that far. *)
Definition reaches_provider (compContext : XComponentContext)
    (provider : XMultiServiceFactory) : Prop :=
  exists servManager iFace,
    getServiceManager compContext = Returns (Some servManager) /\
    createInstanceWithContext servManager
      "com.sun.star.configuration.ConfigurationProvider" compContext
      = Returns (Some iFace) /\
    query_XMultiServiceFactory iFace = Returns (Some provider).

End CommonOutcomes.

(** *** Runs over the statics

    A run interleaves calls of [getVoikkoMutex] with the other activity on
    the statics; it collects the references the calls answer. *)
Inductive step :=
| step_getVoikkoMutex
| step_action (a : action).

Fixpoint run (p : list step) (s : statics) : list static_object * statics :=
  match p with
  | [] => ([], s)
  | step_getVoikkoMutex :: p' =>
      let (m, s') := getVoikkoMutex s in
      let (ms, s'') := run p' s' in
      (m :: ms, s'')
  | step_action a :: p' => run p' (perform s a)
  end.

(** The activity of a run with its calls of [getVoikkoMutex] left out. *)
Fixpoint actions_of (p : list step) : list action :=
  match p with
  | [] => []
  | step_getVoikkoMutex :: p' => actions_of p'
  | step_action a :: p' => a :: actions_of p'
  end.

Fixpoint calls_in (p : list step) : nat :=
  match p with
  | [] => 0%nat
  | step_getVoikkoMutex :: p' => S (calls_in p')
  | step_action _ :: p' => calls_in p'
  end.

(* ===================================================================== *)
(** ** Scenario hosts *)
(* ===================================================================== *)

Module Hosts.

(** A host whose services all answer: objects are numbered. *)
Definition healthy : UnoRuntime := {|
  XComponentContext := nat;
  XMultiComponentFactory := nat;
  XMultiServiceFactory := nat;
  XInterface := nat;
  XPackageInformationProvider := nat;
  PackageInformationProvider_get := fun _ => Returns 1%nat;
  getPackageLocation := fun _ _ => Returns "file:///opt/voikko";
  getSystemPathFromFileURL := fun url =>
    if String.eqb url "file:///opt/voikko" then Some "/opt/voikko" else None;
  getServiceManager := fun _ => Returns (Some 2%nat);
  createInstanceWithContext := fun _ _ _ => Returns (Some 3%nat);
  query_XMultiServiceFactory := fun _ => Returns (Some 4%nat);
  createInstanceWithArguments := fun _ _ _ => Returns (Some 5%nat)
|}.

(** A host without the package-information singleton
    ([DeploymentException]) and with a damaged configuration (creating the
    update access throws). *)
Definition damaged : UnoRuntime := {|
  XComponentContext := nat;
  XMultiComponentFactory := nat;
  XMultiServiceFactory := nat;
  XInterface := nat;
  XPackageInformationProvider := nat;
  PackageInformationProvider_get := fun _ =>
    Throws (uno_Exception "component context fails to supply singleton");
  getPackageLocation := fun _ _ => Returns "";
  getSystemPathFromFileURL := fun _ => None;
  getServiceManager := fun _ => Returns (Some 2%nat);
  createInstanceWithContext := fun _ _ _ => Returns (Some 3%nat);
  query_XMultiServiceFactory := fun _ => Returns (Some 4%nat);
  createInstanceWithArguments := fun _ _ _ =>
    Throws (uno_Exception "cannot open configuration node")
|}.

(** A host that runs out of memory while the package location is built:
    [std::bad_alloc] is not a [uno::Exception]. *)
Definition out_of_memory : UnoRuntime := {|
  XComponentContext := nat;
  XMultiComponentFactory := nat;
  XMultiServiceFactory := nat;
  XInterface := nat;
  XPackageInformationProvider := nat;
  PackageInformationProvider_get := fun _ => Returns 1%nat;
  getPackageLocation := fun _ _ => Throws (foreign_exception "std::bad_alloc");
  getSystemPathFromFileURL := fun _ => None;
  getServiceManager := fun _ => Returns (Some 2%nat);
  createInstanceWithContext := fun _ _ _ => Returns (Some 3%nat);
  query_XMultiServiceFactory := fun _ => Returns (Some 4%nat);
  createInstanceWithArguments := fun _ _ _ => Returns (Some 5%nat)
|}.

(** A host whose service manager cannot instantiate the configuration
    provider and says so with an exception, as the interface permits. *)
Definition no_configuration_provider : UnoRuntime := {|
  XComponentContext := nat;
  XMultiComponentFactory := nat;
  XMultiServiceFactory := nat;
  XInterface := nat;
  XPackageInformationProvider := nat;
  PackageInformationProvider_get := fun _ => Returns 1%nat;
  getPackageLocation := fun _ _ => Returns "file:///opt/voikko";
  getSystemPathFromFileURL := fun _ => None;
  getServiceManager := fun _ => Returns (Some 2%nat);
  createInstanceWithContext := fun _ _ _ =>
    Throws (uno_Exception "service not available");
  query_XMultiServiceFactory := fun _ => Returns (Some 4%nat);
  createInstanceWithArguments := fun _ _ _ => Returns (Some 5%nat)
|}.

End Hosts.

(* ===================================================================== *)
(** ** Properties of the spelling-alternatives holder *)
(* ===================================================================== *)

(** *** Integer conversions *)

Lemma to_sal_Int16_id (z : Z) :
  Sal.in_sal_Int16 z -> Sal.to_sal_Int16 z = z.
Proof.
  unfold Sal.in_sal_Int16, Sal.SAL_MIN_INT16, Sal.SAL_MAX_INT16, Sal.to_sal_Int16.
  intros [Hlo Hhi].
  rewrite Z.mod_small; lia.
Qed.

Lemma to_sal_Int16_range (z : Z) : Sal.in_sal_Int16 (Sal.to_sal_Int16 z).
Proof.
  unfold Sal.in_sal_Int16, Sal.SAL_MIN_INT16, Sal.SAL_MAX_INT16, Sal.to_sal_Int16.
  pose proof (Z.mod_pos_bound (z + 32768) 65536 eq_refl). lia.
Qed.

Lemma getLength_nonneg {T} (s : Sequence T) : 0 <= getLength s.
Proof. unfold getLength. lia. Qed.

(** *** Construction *)

Lemma construct_fields (w : OUString) (alts : Sequence OUString) :
  construct w alts = {| word := w; alternatives := alts |}.
Proof. reflexivity. Qed.

(** Members that are never assigned keep what they held. *)
Lemma fold_assign_alternatives_kept (asgs : list assignment) (r : SpellAlternatives) :
  (forall a, In a asgs -> exists w, a = set_word w) ->
  alternatives (fold_left assign asgs r) = alternatives r.
Proof.
  revert r. induction asgs as [|a asgs IH]; intros r Hall; simpl.
  - reflexivity.
  - rewrite IH.
    + destruct (Hall a (or_introl eq_refl)) as [w ->]. reflexivity.
    + intros b Hb. apply Hall. right. exact Hb.
Qed.

(** *** The numerals used as a long candidate list *)

Lemma numeral_injective : Injective numeral.
Proof.
  intros n m H. unfold numeral in H.
  assert (Hu : Some (Nat.to_uint n) = Some (Nat.to_uint m)).
  { rewrite <- !NilEmpty.usu. now rewrite H. }
  injection Hu as Hu.
  rewrite <- (Unsigned.of_to n), <- (Unsigned.of_to m). now rewrite Hu.
Qed.

Lemma numerals_NoDup (n : nat) : NoDup (numerals n).
Proof.
  unfold numerals. apply Injective_map_NoDup.
  - exact numeral_injective.
  - apply seq_NoDup.
Qed.

Lemma numerals_length (n : nat) : getLength (numerals n) = Z.of_nat n.
Proof. unfold getLength, numerals. now rewrite length_map, length_seq. Qed.

Example numerals_3 : numerals 3 = ["0"; "1"; "2"].
Proof. reflexivity. Qed.

(** *** Sessions leave the instance alone *)

Section AccessorFacts.

Variable engine_locale : Locale.
Variable engine_failureType : Z.

Lemma call_keeps_this (op : operation) (this : SpellAlternatives) :
  snd (call engine_locale engine_failureType op this) = this.
Proof. destruct op; reflexivity. Qed.

Lemma session_keeps_this (ops : list operation) (this : SpellAlternatives) :
  snd (session engine_locale engine_failureType ops this) = this.
Proof.
  induction ops as [|op ops IH]; simpl.
  - reflexivity.
  - pose proof (call_keeps_this op this) as Hc.
    destruct (call engine_locale engine_failureType op this) as [v this'].
    simpl in Hc. subst this'.
    destruct (session engine_locale engine_failureType ops this) as [vs this''].
    simpl in IH |- *. exact IH.
Qed.

Lemma session_answers (ops : list operation) (this : SpellAlternatives) :
  fst (session engine_locale engine_failureType ops this)
  = map (fun op => fst (call engine_locale engine_failureType op this)) ops.
Proof.
  induction ops as [|op ops IH]; simpl.
  - reflexivity.
  - pose proof (call_keeps_this op this) as Hc.
    destruct (call engine_locale engine_failureType op this) as [v this'].
    simpl in Hc. subst this'.
    destruct (session engine_locale engine_failureType ops this) as [vs this''].
    simpl in IH |- *. now rewrite IH.
Qed.

End AccessorFacts.

Example scenario_helo :
  fst (session fi_FI 3
         [op_getAlternativesCount; op_getAlternatives; op_getWord]
         (construct "helo" ["hello"; "help"; "held"]))
  = [ans_sal_Int16 3; ans_Sequence ["hello"; "help"; "held"]; ans_OUString "helo"].
Proof. reflexivity. Qed.

(** C1, as the code has it. For every instance whose alternatives number
    at most 32767 (the largest [sal_Int16]), [getAlternativesCount]
    answers the length of the sequence [getAlternatives] answers. *)
Theorem getAlternativesCount_is_length (r : SpellAlternatives) :
  getLength (fst (getAlternatives r)) <= Sal.SAL_MAX_INT16 ->
  fst (getAlternativesCount r) = getLength (fst (getAlternatives r)).
Proof.
  unfold getAlternativesCount, getAlternatives. simpl. intros Hlen.
  apply to_sal_Int16_id. split.
  - pose proof (getLength_nonneg (alternatives r)).
    unfold Sal.SAL_MIN_INT16. lia.
  - exact Hlen.
Qed.

Lemma getAlternativesCount_is_length_witness :
  getLength (fst (getAlternatives (construct "helo" ["hello"; "help"; "held"])))
    <= Sal.SAL_MAX_INT16 /\
  fst (getAlternativesCount (construct "helo" ["hello"; "help"; "held"]))
    = getLength (fst (getAlternatives (construct "helo" ["hello"; "help"; "held"]))).
Proof.
  split.
  - vm_compute. discriminate.
  - apply (getAlternativesCount_is_length (construct "helo" ["hello"; "help"; "held"])).
    vm_compute. discriminate.
Defined.

(** C1 as stated fails: a valid construction with 32768 pairwise different
    alternatives has a count of -32768, not 32768, because the count is a
    [sal_Int16]. *)
Lemma getAlternativesCount_wraps :
  valid_construction "helo" (numerals too_many) /\
  getLength (fst (getAlternatives (construct "helo" (numerals too_many)))) = 32768 /\
  fst (getAlternativesCount (construct "helo" (numerals too_many))) = -32768 /\
  fst (getAlternativesCount (construct "helo" (numerals too_many)))
    <> getLength (fst (getAlternatives (construct "helo" (numerals too_many)))).
Proof.
  assert (Hlen : getLength (numerals too_many) = 32768).
  { rewrite numerals_length. reflexivity. }
  unfold valid_construction, getAlternativesCount, getAlternatives.
  rewrite construct_fields. simpl fst. simpl alternatives.
  rewrite Hlen. repeat split.
  - apply numerals_NoDup.
  - unfold Sal.SAL_MAX_INT32. lia.
  - vm_compute. discriminate.
Qed.

(** C2. Whatever operations the host has called before, the instance is
    as it was constructed (its [word] and [alternatives] are unchanged),
    and an accessor called again answers what it answered the first
    time. *)
Theorem accessors_never_mutate :
  forall (engine_locale : Locale) (engine_failureType : Z)
         (earlier : list operation) (op : operation) (r : SpellAlternatives),
    let r' := snd (session engine_locale engine_failureType earlier r) in
    r' = r /\
    word r' = word r /\
    alternatives r' = alternatives r /\
    snd (call engine_locale engine_failureType op r) = r /\
    fst (call engine_locale engine_failureType op r')
      = fst (call engine_locale engine_failureType op r).
Proof.
  intros loc ft earlier op r r'. subst r'.
  rewrite session_keeps_this.
  repeat split; try reflexivity.
  apply call_keeps_this.
Qed.

(** What a series of member assignments leaves in an instance. *)
Lemma fold_assign_last (asgs : list assignment) (r : SpellAlternatives) :
  fold_left assign asgs r
  = {| word := last_word asgs (word r);
       alternatives := last_alternatives asgs (alternatives r) |}.
Proof.
  revert r. induction asgs as [|[w|a] asgs IH]; intros r; simpl.
  - destruct r; reflexivity.
  - rewrite IH. reflexivity.
  - rewrite IH. reflexivity.
Qed.



(** C4. [getWord] answers the word the instance was constructed with,
    character for character; constructed with "teh" it answers "teh",
    neither "the" nor "Teh". *)
Theorem getWord_exact :
  forall (w : OUString) (alts : Sequence OUString),
    fst (getWord (construct w alts)) = w /\
    fst (getWord (construct "teh" alts)) = "teh" /\
    fst (getWord (construct "teh" alts)) <> "the" /\
    fst (getWord (construct "teh" alts)) <> "Teh".
Proof.
  intros w alts. rewrite !construct_fields. simpl.
  repeat split; discriminate.
Qed.

(** C5. Constructed with zero alternatives, the instance has a count of 0
    and answers the empty sequence; the answer is a sequence by type, so
    it is never absent. The same holds when no sequence is assigned at
    all. *)
Theorem no_alternatives :
  forall (w : OUString),
    fst (getAlternativesCount (construct w [])) = 0 /\
    fst (getAlternatives (construct w [])) = [] /\
    fst (getAlternativesCount SpellAlternatives_new) = 0 /\
    fst (getAlternatives SpellAlternatives_new) = [].
Proof.
  intros w. rewrite construct_fields. repeat split.
Qed.

(** C6 as stated fails. An attempt that supplies no alternatives at all
    yields a live instance holding the empty sequence, and an attempt that
    supplies a sequence with a duplicate yields a live instance that
    breaks the invariant of the data model: nothing fails. *)
Lemma construction_never_rejects :
  construct_with [set_word "helo"]
    = Constructed {| word := "helo"; alternatives := [] |} /\
  construct_with [set_word "helo"; set_alternatives ["help"; "help"]]
    = Constructed {| word := "helo"; alternatives := ["help"; "help"] |} /\
  ~ valid_construction "helo" ["help"; "help"] /\
  ~ valid_instance {| word := "helo"; alternatives := ["help"; "help"] |}.
Proof.
  assert (Hdup : ~ NoDup ["help"; "help"]).
  { intros H. inversion H as [|x l Hin _]; subst. apply Hin. left. reflexivity. }
  repeat split; try reflexivity.
  - intros [H _]. exact (Hdup H).
  - intros [H _]. exact (Hdup H).
Qed.

(** C6, as the code has it. Construction never fails and checks nothing:
    every attempt yields an instance; with both members assigned the
    instance holds exactly the word and the sequence supplied, with no
    sequence assigned it holds the empty sequence, and it is valid
    exactly when what was supplied was valid. *)
Theorem construction_total :
  forall (asgs : list assignment) (w : OUString) (alts : Sequence OUString),
    construct_with asgs <> ConstructionFailed /\
    construct_with [set_word w; set_alternatives alts]
      = Constructed {| word := w; alternatives := alts |} /\
    construct_with [set_word w] = Constructed {| word := w; alternatives := [] |} /\
    (valid_instance (construct w alts) <-> valid_construction w alts).
Proof.
  intros asgs w alts. split; [|split; [|split]].
  - unfold construct_with. discriminate.
  - reflexivity.
  - reflexivity.
  - unfold valid_instance, valid_construction.
    rewrite construct_fields. simpl. tauto.
Qed.

(* ===================================================================== *)
(** ** Properties of the common glue *)
(* ===================================================================== *)

Section CommonFacts.

Context {uno : UnoRuntime}.

Lemma try_catch_uno_Exception_returns {A} (a : A) handler :
  try_catch_uno_Exception (Returns a) handler = Returns a.
Proof. reflexivity. Qed.

Lemma try_catch_uno_Exception_caught {A} (m : OUString) (handler : OUString -> outcome A) :
  try_catch_uno_Exception (Throws (uno_Exception m)) handler = handler m.
Proof. reflexivity. Qed.

Lemma try_catch_uno_Exception_foreign {A} (w : string) (handler : OUString -> outcome A) :
  try_catch_uno_Exception (Throws (foreign_exception w)) handler
  = Throws (foreign_exception w).
Proof. reflexivity. Qed.

(** No [uno::Exception] leaves [getInstallationPath]. *)
Lemma getInstallationPath_no_uno_Exception (compContext : XComponentContext) (m : OUString) :
  getInstallationPath compContext <> Throws (uno_Exception m).
Proof.
  unfold getInstallationPath.
  destruct (getInstallationPath_try compContext) as [p | [m' | w]]; simpl; discriminate.
Qed.

(** Without an exception the answer is the converted location, or the
    empty string when the conversion reports an error. *)
Lemma getInstallationPath_normal (compContext : XComponentContext) provider url :
  PackageInformationProvider_get compContext = Returns provider ->
  getPackageLocation provider "org.puimula.ooovoikko" = Returns url ->
  getInstallationPath compContext
  = Returns (match getSystemPathFromFileURL url with Some p => p | None => "" end).
Proof.
  intros Hp Hl. unfold getInstallationPath, getInstallationPath_try.
  rewrite Hp. simpl. rewrite Hl. reflexivity.
Qed.

(** What [getRegistryProperties] answers is decided by the chain of calls. *)
Lemma getRegistryProperties_returns_inv (group : OUString)
    (compContext : XComponentContext) (v : XInterface) :
  getRegistryProperties group compContext = Returns (Some v) ->
  complete_view group compContext v.
Proof.
  unfold getRegistryProperties, complete_view.
  destruct (getServiceManager compContext) as [[sm|]|e] eqn:Hsm; simpl;
    try discriminate.
  destruct (createInstanceWithContext sm _ compContext) as [[i|]|e] eqn:Hi; simpl;
    try discriminate.
  destruct (query_XMultiServiceFactory i) as [[p|]|e] eqn:Hq; simpl;
    try discriminate.
  destruct (createInstanceWithArguments p _ _) as [[r|]|[m|w]] eqn:Hr; simpl;
    try discriminate.
  intros H. injection H as ->.
  exists sm, i, p. repeat split; assumption.
Qed.

Lemma getRegistryProperties_handled (group : OUString) (compContext : XComponentContext) :
  handled_failure group compContext ->
  getRegistryProperties group compContext = Returns None.
Proof.
  unfold getRegistryProperties.
  intros [Hsm | sm Hsm Hi | sm i Hsm Hi Hq | sm i p m Hsm Hi Hq Hr | sm i p Hsm Hi Hq Hr];
    rewrite Hsm; simpl; try reflexivity;
    rewrite Hi; simpl; try reflexivity;
    rewrite Hq; simpl; try reflexivity;
    rewrite Hr; reflexivity.
Qed.

End CommonFacts.

(** C8, as the code has it. If a [uno::Exception] (or an exception derived
    from it) is raised while the package location is resolved,
    [getInstallationPath] answers the empty string and nothing
    propagates. *)
Theorem getInstallationPath_catches_uno_Exception :
  forall (uno : UnoRuntime) (compContext : XComponentContext) (m : OUString),
    getInstallationPath_try compContext = Throws (uno_Exception m) ->
    getInstallationPath compContext = Returns "".
Proof.
  intros uno compContext m H. unfold getInstallationPath. rewrite H. reflexivity.
Qed.

Lemma getInstallationPath_catches_uno_Exception_witness :
  @getInstallationPath_try Hosts.damaged 0%nat
    = Throws (uno_Exception "component context fails to supply singleton") /\
  @getInstallationPath Hosts.damaged 0%nat = Returns "".
Proof.
  split.
  - reflexivity.
  - apply (getInstallationPath_catches_uno_Exception Hosts.damaged 0%nat
             "component context fails to supply singleton").
    reflexivity.
Defined.

(** C8 as stated fails: an exception that is not a [uno::Exception],
    raised while the package location is resolved, leaves
    [getInstallationPath] uncaught. *)
Lemma getInstallationPath_lets_foreign_exception_through :
  @getInstallationPath_try Hosts.out_of_memory 0%nat
    = Throws (foreign_exception "std::bad_alloc") /\
  @getInstallationPath Hosts.out_of_memory 0%nat
    = Throws (foreign_exception "std::bad_alloc") /\
  @getInstallationPath Hosts.out_of_memory 0%nat <> Returns "".
Proof. repeat split; discriminate. Qed.

Example getInstallationPath_healthy :
  @getInstallationPath Hosts.healthy 0%nat = Returns "/opt/voikko".
Proof. reflexivity. Qed.

(** C9, as the code has it. For every group and context, when the service
    manager is absent, or the provider instance or the queried provider
    is null, or creating the configuration access throws a
    [uno::Exception] or answers null, [getRegistryProperties] returns a
    null reference without throwing; and a view it does return is the
    one the complete chain of calls produced. *)
Theorem getRegistryProperties_null_on_handled_failure :
  forall (uno : UnoRuntime) (group : OUString) (compContext : XComponentContext),
    (handled_failure group compContext ->
     getRegistryProperties group compContext = Returns None) /\
    (forall v, getRegistryProperties group compContext = Returns (Some v) ->
               complete_view group compContext v).
Proof.
  intros uno group compContext. split.
  - apply getRegistryProperties_handled.
  - intros v. apply getRegistryProperties_returns_inv.
Qed.

Lemma getRegistryProperties_null_on_handled_failure_witness :
  @handled_failure Hosts.damaged "/org.puimula.ooovoikko.Config/dictionary" 0%nat /\
  @getRegistryProperties Hosts.damaged "/org.puimula.ooovoikko.Config/dictionary" 0%nat
    = Returns None.
Proof.
  assert (H : @handled_failure Hosts.damaged
                "/org.puimula.ooovoikko.Config/dictionary" 0%nat).
  { apply (@rootView_throws Hosts.damaged _ _ 2%nat 3%nat 4%nat
             "cannot open configuration node"); reflexivity. }
  split.
  - exact H.
  - exact (proj1 (getRegistryProperties_null_on_handled_failure Hosts.damaged
                    "/org.puimula.ooovoikko.Config/dictionary" 0%nat) H).
Defined.

(** C9 as stated fails: when creating the provider instance fails with an
    exception, [getRegistryProperties] throws instead of returning a
    null reference. *)
Lemma getRegistryProperties_throws_on_provider_creation :
  @getServiceManager Hosts.no_configuration_provider 0%nat = Returns (Some 2%nat) /\
  @createInstanceWithContext Hosts.no_configuration_provider 2%nat
    "com.sun.star.configuration.ConfigurationProvider" 0%nat
    = Throws (uno_Exception "service not available") /\
  @getRegistryProperties Hosts.no_configuration_provider
    "/org.puimula.ooovoikko.Config/dictionary" 0%nat
    = Throws (uno_Exception "service not available") /\
  @getRegistryProperties Hosts.no_configuration_provider
    "/org.puimula.ooovoikko.Config/dictionary" 0%nat <> Returns None.
Proof. repeat split; discriminate. Qed.

Example getRegistryProperties_healthy :
  @getRegistryProperties Hosts.healthy "/org.puimula.ooovoikko.Config/dictionary" 0%nat
  = Returns (Some 5%nat).
Proof. reflexivity. Qed.

(** *** The process-wide mutex *)

Lemma getVoikkoMutex_constructs (s : statics) :
  voikkoMutex (snd (getVoikkoMutex s)) <> None.
Proof.
  unfold getVoikkoMutex. destruct (voikkoMutex s) eqn:E; simpl.
  - rewrite E. discriminate.
  - discriminate.
Qed.

Lemma perform_keeps_constructed (a : action) (s : statics) :
  voikkoMutex s <> None -> voikkoMutex (perform s a) <> None.
Proof.
  destruct a; simpl; destruct (voikkoMutex s); simpl; congruence.
Qed.

Lemma run_keeps_constructed (acts : list action) (s : statics) :
  voikkoMutex s <> None -> voikkoMutex (fold_left perform acts s) <> None.
Proof.
  revert s. induction acts as [|a acts IH]; intros s H; simpl.
  - exact H.
  - apply IH. apply perform_keeps_constructed. exact H.
Qed.

Lemma getVoikkoMutex_constructed (s : statics) :
  voikkoMutex s <> None -> getVoikkoMutex s = (the_voikkoMutex, s).
Proof.
  unfold getVoikkoMutex. destruct (voikkoMutex s); [reflexivity | congruence].
Qed.

(** C10. Two calls of [getVoikkoMutex] in one run, whatever state the
    first finds and whatever happens to the statics in between, answer
    the same object, the function's static [voikkoMutex]; the second call
    constructs nothing anew (the statics, and with them the state of the
    mutex, are as it found them). *)
Theorem getVoikkoMutex_same_object :
  forall (s : statics) (between : list action),
    let first := getVoikkoMutex s in
    let second := getVoikkoMutex (fold_left perform between (snd first)) in
    fst first = fst second /\
    fst first = the_voikkoMutex /\
    snd second = fold_left perform between (snd first).
Proof.
  intros s between first second. subst first second.
  pose proof (run_keeps_constructed between _ (getVoikkoMutex_constructs s)) as Hc.
  rewrite (getVoikkoMutex_constructed _ Hc). simpl.
  unfold getVoikkoMutex. destruct (voikkoMutex s); simpl; repeat split.
Qed.

Example getVoikkoMutex_run :
  let (m1, s1) := getVoikkoMutex program_start in
  let s2 := fold_left perform [act_acquire; act_set_initialized true] s1 in
  let (m2, s3) := getVoikkoMutex s2 in
  m1 = m2 /\ voikkoMutex s3 = Some (mkMutex 1).
Proof. simpl. split; reflexivity. Qed.

(* ===================================================================== *)
(** ** Further properties of the common glue *)
(* ===================================================================== *)

(** *** getInstallationPath *)

(** X1. No [uno::Exception] ever leaves [getInstallationPath]; an
    exception leaves it exactly when one that is not a [uno::Exception]
    is raised while the location is resolved, and it is that exception. *)
Theorem getInstallationPath_throws_iff :
  forall (uno : UnoRuntime) (compContext : XComponentContext) (e : exception),
    getInstallationPath compContext = Throws e <->
    exists w, e = foreign_exception w /\
              getInstallationPath_try compContext = Throws (foreign_exception w).
Proof.
  intros uno compContext e. unfold getInstallationPath.
  destruct (getInstallationPath_try compContext) as [p | [m | w]]; simpl; split.
  - discriminate.
  - intros [w [_ H]]. discriminate.
  - discriminate.
  - intros [w [_ H]]. discriminate.
  - intros H. injection H as <-. exists w. split; reflexivity.
  - intros [w' [-> H]]. exact H.
Qed.

(** X2. A non-empty answer of [getInstallationPath] is always the system
    path that [getSystemPathFromFileURL] made of the location of the
    package "org.puimula.ooovoikko". *)
Theorem getInstallationPath_nonempty_inv :
  forall (uno : UnoRuntime) (compContext : XComponentContext) (path : OUString),
    getInstallationPath compContext = Returns path ->
    path <> "" ->
    exists provider url,
      PackageInformationProvider_get compContext = Returns provider /\
      getPackageLocation provider "org.puimula.ooovoikko" = Returns url /\
      getSystemPathFromFileURL url = Some path.
Proof.
  intros uno compContext path. unfold getInstallationPath, getInstallationPath_try.
  destruct (PackageInformationProvider_get compContext) as [provider | [m | w]] eqn:Hp;
    simpl.
  - destruct (getPackageLocation provider "org.puimula.ooovoikko")
      as [url | [m | w]] eqn:Hl; simpl.
    + destruct (getSystemPathFromFileURL url) as [sys|] eqn:Hc.
      * intros H Hne. injection H as <-. exists provider, url. repeat split; assumption.
      * intros H Hne. injection H as <-. contradiction Hne. reflexivity.
    + intros H Hne. injection H as <-. contradiction Hne. reflexivity.
    + discriminate.
  - intros H Hne. injection H as <-. contradiction Hne. reflexivity.
  - discriminate.
Qed.

Lemma getInstallationPath_nonempty_inv_witness :
  @getInstallationPath Hosts.healthy 0%nat = Returns "/opt/voikko" /\
  "/opt/voikko" <> "" /\
  exists provider url,
    @PackageInformationProvider_get Hosts.healthy 0%nat = Returns provider /\
    @getPackageLocation Hosts.healthy provider "org.puimula.ooovoikko" = Returns url /\
    @getSystemPathFromFileURL Hosts.healthy url = Some "/opt/voikko".
Proof.
  split; [reflexivity | split; [discriminate |]].
  apply (getInstallationPath_nonempty_inv Hosts.healthy 0%nat "/opt/voikko").
  - reflexivity.
  - discriminate.
Defined.

(** X3. The result of the URL conversion is not checked: when the
    provider and the location are obtained but the conversion reports an
    error, [getInstallationPath] answers the empty string, the very answer
    it gives after a caught exception, and throws nothing. *)
Theorem getInstallationPath_conversion_error :
  forall (uno : UnoRuntime) (compContext : XComponentContext)
         (provider : XPackageInformationProvider) (url : OUString),
    PackageInformationProvider_get compContext = Returns provider ->
    getPackageLocation provider "org.puimula.ooovoikko" = Returns url ->
    getSystemPathFromFileURL url = None ->
    getInstallationPath compContext = Returns "".
Proof.
  intros uno compContext provider url Hp Hl Hc.
  rewrite (getInstallationPath_normal compContext provider url Hp Hl).
  rewrite Hc. reflexivity.
Qed.

Lemma getInstallationPath_conversion_error_witness :
  @PackageInformationProvider_get Hosts.no_configuration_provider 0%nat = Returns 1%nat /\
  @getPackageLocation Hosts.no_configuration_provider 1%nat "org.puimula.ooovoikko"
    = Returns "file:///opt/voikko" /\
  @getSystemPathFromFileURL Hosts.no_configuration_provider "file:///opt/voikko" = None /\
  @getInstallationPath Hosts.no_configuration_provider 0%nat = Returns "".
Proof.
  split; [reflexivity | split; [reflexivity | split; [reflexivity |]]].
  apply (getInstallationPath_conversion_error Hosts.no_configuration_provider
           0%nat 1%nat "file:///opt/voikko"); reflexivity.
Defined.

(** *** getRegistryProperties *)

(** X4. When every step of the chain succeeds, [getRegistryProperties]
    returns exactly the view [createInstanceWithArguments] produced. *)
Theorem getRegistryProperties_success :
  forall (uno : UnoRuntime) (group : OUString) (compContext : XComponentContext)
         (v : XInterface),
    complete_view group compContext v ->
    getRegistryProperties group compContext = Returns (Some v).
Proof.
  intros uno group compContext v (sm & i & p & Hsm & Hi & Hq & Hr).
  unfold getRegistryProperties.
  rewrite Hsm. simpl. rewrite Hi. simpl. rewrite Hq. simpl. rewrite Hr. reflexivity.
Qed.

Lemma getRegistryProperties_success_witness :
  @complete_view Hosts.healthy "/org.puimula.ooovoikko.Config/dictionary" 0%nat 5%nat /\
  @getRegistryProperties Hosts.healthy "/org.puimula.ooovoikko.Config/dictionary" 0%nat
    = Returns (Some 5%nat).
Proof.
  assert (H : @complete_view Hosts.healthy
                "/org.puimula.ooovoikko.Config/dictionary" 0%nat 5%nat).
  { exists 2%nat, 3%nat, 4%nat. repeat split. }
  split; [exact H |].
  apply (getRegistryProperties_success Hosts.healthy
           "/org.puimula.ooovoikko.Config/dictionary" 0%nat 5%nat H).
Defined.

(** X5. A null reference comes back from [getRegistryProperties] only for
    one of the failures it tests for: an absent service manager, a null
    provider instance, a null queried provider, or a configuration access
    that throws a [uno::Exception] or is null. *)
Theorem getRegistryProperties_null_inv :
  forall (uno : UnoRuntime) (group : OUString) (compContext : XComponentContext),
    getRegistryProperties group compContext = Returns None ->
    handled_failure group compContext.
Proof.
  intros uno group compContext. unfold getRegistryProperties.
  destruct (getServiceManager compContext) as [[sm|]|e] eqn:Hsm; simpl.
  - destruct (createInstanceWithContext sm _ compContext) as [[i|]|e] eqn:Hi; simpl.
    + destruct (query_XMultiServiceFactory i) as [[p|]|e] eqn:Hq; simpl.
      * destruct (createInstanceWithArguments p _ _) as [[r|]|[m|w]] eqn:Hr; simpl.
        -- discriminate.
        -- intros _. exact (rootView_absent group compContext sm i p Hsm Hi Hq Hr).
        -- intros _. exact (rootView_throws group compContext sm i p m Hsm Hi Hq Hr).
        -- discriminate.
      * intros _. exact (provider_absent group compContext sm i Hsm Hi Hq).
      * discriminate.
    + intros _. exact (iFace_absent group compContext sm Hsm Hi).
    + discriminate.
  - intros _. exact (servManager_absent group compContext Hsm).
  - discriminate.
Qed.

Lemma getRegistryProperties_null_inv_witness :
  @getRegistryProperties Hosts.damaged "/org.puimula.ooovoikko.Config/dictionary" 0%nat
    = Returns None /\
  @handled_failure Hosts.damaged "/org.puimula.ooovoikko.Config/dictionary" 0%nat.
Proof.
  split; [reflexivity |].
  apply (getRegistryProperties_null_inv Hosts.damaged
           "/org.puimula.ooovoikko.Config/dictionary" 0%nat).
  reflexivity.
Defined.

(** X6. An exception leaves [getRegistryProperties] exactly when
    [getServiceManager], [createInstanceWithContext] or the interface
    query throws it, or when [createInstanceWithArguments] throws
    something that is not a [uno::Exception]; it leaves unchanged. *)
Theorem getRegistryProperties_throws_iff :
  forall (uno : UnoRuntime) (group : OUString) (compContext : XComponentContext)
         (e : exception),
    getRegistryProperties group compContext = Throws e <->
    escapes group compContext e.
Proof.
  intros uno group compContext e. split.
  - unfold getRegistryProperties.
    destruct (getServiceManager compContext) as [[sm|]|e1] eqn:Hsm; simpl;
      try discriminate.
    + destruct (createInstanceWithContext sm _ compContext) as [[i|]|e2] eqn:Hi; simpl;
        try discriminate.
      * destruct (query_XMultiServiceFactory i) as [[p|]|e3] eqn:Hq; simpl;
          try discriminate.
        -- destruct (createInstanceWithArguments p _ _) as [[r|]|[m|w]] eqn:Hr; simpl;
             try discriminate.
           intros H. injection H as <-.
           exact (escapes_createInstanceWithArguments group compContext sm i p w
                    Hsm Hi Hq Hr).
        -- intros H. injection H as <-.
           exact (escapes_query group compContext sm i e3 Hsm Hi Hq).
      * intros H. injection H as <-.
        exact (escapes_createInstanceWithContext group compContext sm e2 Hsm Hi).
    + intros H. injection H as <-.
      exact (escapes_getServiceManager group compContext e1 Hsm).
  - unfold getRegistryProperties.
    intros [e' Hsm | sm e' Hsm Hi | sm i e' Hsm Hi Hq | sm i p w Hsm Hi Hq Hr];
      rewrite Hsm; simpl; try reflexivity;
      rewrite Hi; simpl; try reflexivity;
      rewrite Hq; simpl; try reflexivity;
      rewrite Hr; reflexivity.
Qed.

(** X7. The group matters only as the "nodepath" argument of the final
    call: two groups for which the provider reached by the chain answers
    [createInstanceWithArguments] alike get the same result, and when the
    chain ends before that call the result is the same for every
    group. *)
Theorem getRegistryProperties_group_only_in_nodepath :
  forall (uno : UnoRuntime) (group1 group2 : OUString)
         (compContext : XComponentContext),
    (forall provider,
        reaches_provider compContext provider ->
        createInstanceWithArguments provider
          "com.sun.star.configuration.ConfigurationUpdateAccess"
          (nodepath_arguments group1)
        = createInstanceWithArguments provider
            "com.sun.star.configuration.ConfigurationUpdateAccess"
            (nodepath_arguments group2)) ->
    getRegistryProperties group1 compContext = getRegistryProperties group2 compContext.
Proof.
  intros uno group1 group2 compContext Hsame. unfold getRegistryProperties.
  destruct (getServiceManager compContext) as [[sm|]|e1] eqn:Hsm; simpl;
    try reflexivity.
  destruct (createInstanceWithContext sm _ compContext) as [[i|]|e2] eqn:Hi; simpl;
    try reflexivity.
  destruct (query_XMultiServiceFactory i) as [[p|]|e3] eqn:Hq; simpl;
    try reflexivity.
  rewrite (Hsame p).
  - reflexivity.
  - exists sm, i. repeat split; assumption.
Qed.

Lemma getRegistryProperties_group_only_in_nodepath_witness :
  @getRegistryProperties Hosts.healthy "/org.puimula.ooovoikko.Config/dictionary" 0%nat
  = @getRegistryProperties Hosts.healthy "/org.puimula.ooovoikko.Config/hyphenator" 0%nat.
Proof.
  apply (getRegistryProperties_group_only_in_nodepath Hosts.healthy
           "/org.puimula.ooovoikko.Config/dictionary"
           "/org.puimula.ooovoikko.Config/hyphenator" 0%nat).
  intros provider _. reflexivity.
Defined.

(** The argument sequence tells the groups apart. *)
Lemma nodepath_arguments_injective (group1 group2 : OUString) :
  nodepath_arguments group1 = nodepath_arguments group2 -> group1 = group2.
Proof. unfold nodepath_arguments. intros H. injection H as H. exact H. Qed.

(** *** getVoikkoMutex over whole runs *)

Lemma run_constructed (p : list step) (s : statics) :
  voikkoMutex s <> None ->
  snd (run p s) = fold_left perform (actions_of p) s.
Proof.
  revert s. induction p as [|[|a] p IH]; intros s Hs; simpl.
  - reflexivity.
  - rewrite (getVoikkoMutex_constructed s Hs).
    specialize (IH s Hs). destruct (run p s) as [ms s'']. simpl in IH |- *. exact IH.
  - apply IH. apply perform_keeps_constructed. exact Hs.
Qed.

Lemma run_answers (p : list step) (s : statics) :
  fst (run p s) = repeat the_voikkoMutex (calls_in p).
Proof.
  revert s. induction p as [|[|a] p IH]; intros s; simpl.
  - reflexivity.
  - destruct (getVoikkoMutex s) as [m s'] eqn:Hg.
    assert (Hm : m = the_voikkoMutex).
    { unfold getVoikkoMutex in Hg. destruct (voikkoMutex s); now inversion Hg. }
    specialize (IH s'). destruct (run p s') as [ms s'']. simpl in IH |- *.
    now rewrite Hm, IH.
  - apply IH.
Qed.

(** X8. In a run that begins with a call of [getVoikkoMutex] and goes on
    with any number of further calls interleaved with any activity on the
    statics, every call answers the same object, and only the first call
    has an effect: the statics end as if the later calls had not been
    made, so the mutex is never constructed a second time nor its holding
    state reset. *)
Theorem getVoikkoMutex_later_calls_are_inert :
  forall (p : list step) (s : statics),
    fst (run (step_getVoikkoMutex :: p) s)
      = repeat the_voikkoMutex (S (calls_in p)) /\
    snd (run (step_getVoikkoMutex :: p) s)
      = fold_left perform (actions_of p) (snd (getVoikkoMutex s)) /\
    voikkoMutex (snd (run (step_getVoikkoMutex :: p) s)) <> None.
Proof.
  intros p s.
  pose proof (run_answers (step_getVoikkoMutex :: p) s) as Ha.
  pose proof (getVoikkoMutex_constructs s) as Hc.
  assert (Hs : snd (run (step_getVoikkoMutex :: p) s)
               = fold_left perform (actions_of p) (snd (getVoikkoMutex s))).
  { simpl. destruct (getVoikkoMutex s) as [m s'] eqn:Hg. simpl in Hc |- *.
    pose proof (run_constructed p s' Hc) as Hr.
    destruct (run p s') as [ms s'']. simpl in Hr |- *. exact Hr. }
  split; [exact Ha | split; [exact Hs |]].
  rewrite Hs. apply run_keeps_constructed. exact Hc.
Qed.

Example run_two_holders :
  run [step_getVoikkoMutex; step_action act_acquire; step_getVoikkoMutex;
       step_action act_acquire; step_getVoikkoMutex] program_start
  = ([the_voikkoMutex; the_voikkoMutex; the_voikkoMutex],
     {| voikkoMutex := Some (mkMutex 2); voikko_initialized := false |}).
Proof. reflexivity. Qed.

(* ===================================================================== *)
(** ** Further properties of the holder's members *)
(* ===================================================================== *)

(** X9. However the assignments to the two public members are ordered
    and repeated, construction succeeds with an instance that holds the
    last word assigned and the last sequence assigned, and the default
    (empty) value of a member that was never assigned; assignments to one
    member never disturb the other. *)
Theorem construct_with_last_assignments :
  forall (asgs : list assignment),
    construct_with asgs
    = Constructed {| word := last_word asgs "";
                     alternatives := last_alternatives asgs [] |}.
Proof.
  intros asgs. unfold construct_with. rewrite fold_assign_last. reflexivity.
Qed.

Example construct_with_reordered :
  construct_with [set_alternatives ["help"]; set_word "hlep"; set_word "helo";
                  set_alternatives ["hello"; "help"]]
  = Constructed (construct "helo" ["hello"; "help"]).
Proof. reflexivity. Qed.
